(** * pquerna/log: the logging facade and its severities

    A shallow embedding of [severity.go] and [log.go].  Go strings are byte
    strings ([string]); [int] and [int32] values are [Z]; a Go [error] is
    the text of its message, with [None] for the nil error; a call that
    panics yields [None] (for a pure function) or the process status
    [Panicked] (for a function acting on the process state). *)

From Stdlib Require Import ZArith List String Ascii Bool Lia DecimalString.
Import ListNotations.
Open Scope string_scope.
Open Scope Z_scope.

(** The Go [error] interface, observed through its [Error()] text. *)
Definition error := string.

(* ================================================================== *)
(** ** Fragments of the Go standard library used by the package *)

Module strings.

(** One byte of [strings.ToUpper] on its ASCII path: 'a'..'z' lose 32. *)
Definition upper_byte (c : ascii) : ascii :=
  let n := N_of_ascii c in
  if ((97 <=? n) && (n <=? 122))%N then ascii_of_N (n - 32) else c.

(** [c < utf8.RuneSelf] for every byte of the string. *)
Fixpoint isASCII (s : string) : bool :=
  match s with
  | EmptyString => true
  | String c rest => (N_of_ascii c <? 128)%N && isASCII rest
  end.

(** What [strings.ToUpper] returns for a string of ASCII bytes. *)
Fixpoint ToUpperASCII (s : string) : string :=
  match s with
  | EmptyString => EmptyString
  | String c rest => String (upper_byte c) (ToUpperASCII rest)
  end.

(** [strings.Contains(s, substr)]. *)
Fixpoint Contains (s substr : string) : bool :=
  if prefix substr s then true
  else match s with
       | EmptyString => false
       | String _ rest => Contains rest substr
       end.

End strings.

(* ================================================================== *)
(** ** severity.go *)

(** [type Severity int32] *)
Definition Severity := Z.

(** The conversion [Severity(idx)] of an [int] to the 32-bit type. *)
Definition to_int32 (z : Z) : Severity :=
  (z + 2 ^ 31) mod 2 ^ 32 - 2 ^ 31.

Definition SeverityDebug : Severity := 0.
Definition SeverityInfo : Severity := 1.
Definition SeverityWarning : Severity := 2.
Definition SeverityError : Severity := 3.

Definition severityNames : list string := ["DEBUG"; "INFO"; "WARN"; "ERROR"].

(** The severities declared by the [const] block. *)
Definition definedSeverities : list Severity :=
  [SeverityDebug; SeverityInfo; SeverityWarning; SeverityError].

(** [func (s Severity) String() string]: the slice index [severityNames[s]];
    [None] is the run-time panic of an index out of range. *)
Definition Severity_String (s : Severity) : option string :=
  if s <? 0 then None else nth_error severityNames (Z.to_nat s).

(** The loop [for idx, name := range names { if name == s { return idx } }],
    started at index [idx]. *)
Fixpoint range_names (names : list string) (idx : Z) (s : string) : option Z :=
  match names with
  | [] => None
  | name :: rest =>
      if String.eqb name s then Some idx else range_names rest (idx + 1) s
  end.

Section SeverityFromString.

(** [strings.ToUpper].  Only two facts about it are used: on ASCII input
    it is the byte-wise mapping, and upper-casing twice changes nothing. *)
Variable ToUpper : string -> string.

(** [func severityFromString(s string) (Severity, error)] *)
Definition severityFromString (s : string) : Severity * option error :=
  let s := ToUpper s in
  match range_names severityNames 0 s with
  | Some idx => (to_int32 idx, None)
  | None => (-1, Some ("unsupported severity: " ++ s))
  end.

End SeverityFromString.

(* ================================================================== *)
(** ** Values passed through [...interface{}] and the [fmt] verbs *)

Set Warnings "-register-all".

(** An [interface{}] argument: an [int], a [string], or a slice of
    arguments (a [[]interface{}] stored in one [interface{}]). *)
Inductive value : Type :=
| VInt (n : Z)
| VString (s : string)
| VSlice (xs : list value).

Module fmt.

Definition decimal (n : Z) : string := NilZero.string_of_int (Z.to_int n).

Definition typeName (v : value) : string :=
  match v with
  | VInt _ => "int"
  | VString _ => "string"
  | VSlice _ => "[]interface {}"
  end.

(** [%!verb(type=value)], printed for a verb the operand does not take. *)
Definition badVerb (verb : ascii) (type text : string) : string :=
  "%!" ++ String verb ("(" ++ type ++ "=" ++ text ++ ")").

Definition sepBySpace (parts : list string) : string :=
  match parts with
  | [] => ""
  | p :: ps => fold_left (fun acc q => acc ++ " " ++ q) ps p
  end.

(** One operand under one of the verbs [d], [v], [s]: an integer prints
    in decimal under [d] and [v], a string as itself under [s] and [v],
    and a slice as its elements under the same verb, between brackets
    and separated by spaces. *)
Fixpoint printValue (verb : ascii) (v : value) : string :=
  match v with
  | VInt n =>
      if (Ascii.eqb verb "d" || Ascii.eqb verb "v")%char
      then decimal n else badVerb verb "int" (decimal n)
  | VString s =>
      if (Ascii.eqb verb "s" || Ascii.eqb verb "v")%char
      then s else badVerb verb "string" s
  | VSlice xs => "[" ++ sepBySpace (map (printValue verb) xs) ++ "]"
  end.

Definition isVerb (c : ascii) : bool :=
  (Ascii.eqb c "d" || Ascii.eqb c "v" || Ascii.eqb c "s")%char.

(** [%!(EXTRA type=value, ...)], printed for operands no verb consumed. *)
Definition extra (args : list value) : string :=
  match args with
  | [] => ""
  | a :: rest =>
      "%!(EXTRA "
      ++ fold_left
           (fun acc v => acc ++ ", " ++ typeName v ++ "=" ++ printValue "v" v)
           rest (typeName a ++ "=" ++ printValue "v" a)
      ++ ")"
  end.

(** [fmt.Sprintf(format, args...)] for formats made of plain text, [%%]
    and the verbs [%d], [%v], [%s], each taking the next operand; a verb
    with no operand left prints [%!verb(MISSING)], operands left over are
    reported at the end, and a lone final [%] prints [%!(NOVERB)].
    [None]: the format is outside this fragment (flags, widths, other
    verbs). *)
Fixpoint Sprintf (format : string) (args : list value) : option string :=
  match format with
  | EmptyString => Some (extra args)
  | String c rest =>
      if Ascii.eqb c "%" then
        match rest with
        | EmptyString => Some ("%!(NOVERB)" ++ extra args)
        | String verb rest' =>
            if Ascii.eqb verb "%" then
              option_map (String "%") (Sprintf rest' args)
            else if isVerb verb then
              match args with
              | [] =>
                  option_map (append ("%!" ++ String verb "(MISSING)"))
                             (Sprintf rest' [])
              | a :: args' =>
                  option_map (append (printValue verb a)) (Sprintf rest' args')
              end
            else None
        end
      else option_map (String c) (Sprintf rest args)
  end.

End fmt.

(* ================================================================== *)
(** ** log.go: types *)

(** An [io.Writer] is known by the name of the destination it writes to. *)
Definition io_Writer := string.

(** The two methods of the [Logger] interface that the facade calls.
    [Writer] returns [None] for the nil [io.Writer].  (The interface also
    lists [Infof], [Warnf], [Errorf] and [Fatalf]; log.go never calls
    them.) *)
Record Backend : Type := {
  Writer : Severity -> option io_Writer;
  FormatMessage :
    Severity -> string -> string -> Z -> string -> list value -> string
}.

(** A value of interface type [Logger]; [None] is the nil interface. *)
Definition Logger := option Backend.

(** [type LogConfig struct { Name string; Severity string }] *)
Record LogConfig : Type := {
  Name : string;
  Severity_ : string
}.

(** [func (c LogConfig) String() string]: both fields are strings, which
    [%v] prints as they are. *)
Definition LogConfig_String (c : LogConfig) : string :=
  "LogConfig(Name=" ++ Name c ++ ", Severity=" ++ Severity_ c ++ ")".

(** What the process has done that an observer can see, oldest first. *)
Inductive event : Type :=
| EvNewLogger (config : LogConfig)      (* NewLogger(config) was called *)
| EvWrite (w : io_Writer) (s : string). (* io.WriteString(w, s) *)

(** Whether the process is still executing, died in a panic, or called
    [os.Exit(code)]. *)
Inductive status : Type :=
| Running
| Panicked
| Exited (code : Z).

(** The package-level variables [loggers] and [message], and the process
    around them. *)
Record State : Type := {
  loggers : list Logger;
  message : string;
  proc : status;
  trace : list event
}.

(** Process start: [var loggers []Logger] is the nil slice. *)
Definition initial_state : State :=
  {| loggers := []; message := ""; proc := Running; trace := [] |}.

Definition set_loggers (ls : list Logger) (st : State) : State :=
  {| loggers := ls; message := message st; proc := proc st; trace := trace st |}.

Definition set_message (m : string) (st : State) : State :=
  {| loggers := loggers st; message := m; proc := proc st; trace := trace st |}.

Definition set_proc (p : status) (st : State) : State :=
  {| loggers := loggers st; message := message st; proc := p; trace := trace st |}.

Definition record_event (e : event) (st : State) : State :=
  {| loggers := loggers st; message := message st; proc := proc st;
     trace := (trace st ++ [e])%list |}.

(** [io.WriteString(w, s)]; its result is discarded by the caller. *)
Definition io_WriteString (w : io_Writer) (s : string) (st : State) : State :=
  record_event (EvWrite w s) st.

(** A method call through a nil interface value. *)
Definition nil_dereference (st : State) : State := set_proc Panicked st.

(** The declarations log.go uses from the rest of the package: two severity
    constants, the two helpers of [writeMessage], and the three backend
    constructors. *)
Class Externals : Type := {
  SeverityWarn : Severity;
  SeverityFatal : Severity;
  callerInfo : Z -> string * string * Z;
  stackTraces : string;
  NewConsoleLogger : LogConfig -> Logger * option error;
  NewSysLogger : LogConfig -> Logger * option error;
  NewUDPLogger : LogConfig -> Logger * option error
}.

(* ================================================================== *)
(** ** log.go: functions *)

Section Facade.

Context {ext : Externals}.

(** [func Init(l ...Logger)] *)
Fixpoint Init (l : list Logger) (st : State) : State :=
  match l with
  | [] => st
  | logger :: rest => Init rest (set_loggers (loggers st ++ [logger])%list st)
  end.

(** [func NewLogger(config LogConfig) (Logger, error)].  [%v] prints a
    [LogConfig] through its [String] method. *)
Definition NewLogger (config : LogConfig) : Logger * option error :=
  if String.eqb (Name config) "console" then NewConsoleLogger config
  else if String.eqb (Name config) "syslog" then NewSysLogger config
  else if String.eqb (Name config) "udplog" then NewUDPLogger config
  else (None, Some ("unknown logger: " ++ LogConfig_String config)).

(** [func InitWithConfig(logConfigs []LogConfig) error] *)
Fixpoint InitWithConfig (logConfigs : list LogConfig) (st : State)
  : option error * State :=
  match logConfigs with
  | [] => (None, st)
  | config :: rest =>
      let st := record_event (EvNewLogger config) st in
      let '(l, err) := NewLogger config in
      match err with
      | Some e => (Some e, st)
      | None => InitWithConfig rest (set_loggers (loggers st ++ [l])%list st)
      end
  end.

(** [func writeMessage(logger Logger, callDepth int, sev Severity,
    format string, args ...interface{})].  [message = ...] assigns the
    package-level variable. *)
Definition writeMessage (logger : Logger) (callDepth : Z) (sev : Severity)
    (format : string) (args : list value) (st : State) : State :=
  let '(fileName, funcName, lineNo) := callerInfo (callDepth + 1) in
  match logger with
  | None => nil_dereference st
  | Some b =>
      match Writer b sev with
      | Some w =>
          let st :=
            set_message
              (FormatMessage b sev fileName funcName lineNo format args) st in
          let st := io_WriteString w (message st) st in
          if sev =? SeverityFatal then io_WriteString w stackTraces st
          else st
      | None => st
      end
  end.

(** [for _, logger := range ls { body(logger) }]; a process that is no
    longer running executes nothing further. *)
Fixpoint range_loggers (body : Logger -> State -> State)
    (ls : list Logger) (st : State) : State :=
  match ls with
  | [] => st
  | logger :: rest =>
      match proc st with
      | Running => range_loggers body rest (body logger st)
      | _ => st
      end
  end.

(** The four emission functions.  Each hands its own [args] slice to the
    variadic [writeMessage] as ONE argument (the call is written
    [writeMessage(..., format, args)], without [...]), so [writeMessage]
    receives the one-element list [[VSlice args]]. *)
Definition Infof (format : string) (args : list value) (st : State) : State :=
  range_loggers
    (fun logger => writeMessage logger 1 SeverityInfo format [VSlice args])
    (loggers st) st.

Definition Warnf (format : string) (args : list value) (st : State) : State :=
  range_loggers
    (fun logger => writeMessage logger 1 SeverityWarn format [VSlice args])
    (loggers st) st.

Definition Errorf (format : string) (args : list value) (st : State) : State :=
  range_loggers
    (fun logger => writeMessage logger 1 SeverityError format [VSlice args])
    (loggers st) st.

Definition Fatalf (format : string) (args : list value) (st : State) : State :=
  range_loggers
    (fun logger => writeMessage logger 1 SeverityFatal format [VSlice args])
    (loggers st) st.

(** The writes an emission at severity [sev] owes one registry entry:
    none when its [Writer] is nil, else the formatted message, followed
    at fatal severity by the stack traces, all to the writer returned. *)
Definition writes_of (sev : Severity) (format : string) (args : list value)
    (b : Backend) : list event :=
  match Writer b sev with
  | None => []
  | Some w =>
      let '(fileName, funcName, lineNo) := callerInfo 2 in
      EvWrite w (FormatMessage b sev fileName funcName lineNo format args)
      :: (if sev =? SeverityFatal then [EvWrite w stackTraces] else [])
  end.

End Facade.

(** The four emission functions, each with the severity it passes to
    [writeMessage]. *)
Definition emissions {ext : Externals}
  : list ((string -> list value -> State -> State) * Severity) :=
  [ (Infof, SeverityInfo); (Warnf, SeverityWarn);
    (Errorf, SeverityError); (Fatalf, SeverityFatal) ].

(* ================================================================== *)
(** ** A concrete package around log.go, for running the functions *)

(** Modelled from the spec: the backends are not part of log.go.  This one
    writes to the in-memory destination [w]; its writer-selection returns
    no destination below the configured minimum severity, and its message
    carries the severity name, the source file, line and function, and the
    user text formatted by [fmt.Sprintf(format, args...)]. *)
Definition bufferLogger (w : io_Writer) (minSeverity : Severity) : Backend :=
  {| Writer := fun sev => if minSeverity <=? sev then Some w else None;
     FormatMessage := fun sev fileName funcName lineNo format args =>
       match Severity_String sev with Some name => name | None => "FATAL" end
       ++ " " ++ fileName ++ ":" ++ fmt.decimal lineNo ++ " " ++ funcName
       ++ ": "
       ++ match fmt.Sprintf format args with Some text => text | None => "" end
  |}.

(** Modelled from the spec: a backend constructor parses the configured
    minimum severity and reports a construction failure as an error. *)
Definition newBufferLogger (w : io_Writer) (config : LogConfig)
  : Logger * option error :=
  match severityFromString strings.ToUpperASCII (Severity_ config) with
  | (sev, None) => (Some (bufferLogger w sev), None)
  | (_, Some e) => (None, Some e)
  end.

Definition testExternals : Externals :=
  {| SeverityWarn := 2;
     SeverityFatal := 4;
     callerInfo := fun _ => ("main.go", "main.run", 42);
     stackTraces := "goroutine 1 [running]:";
     NewConsoleLogger := newBufferLogger "console";
     NewSysLogger := newBufferLogger "syslog";
     NewUDPLogger := newBufferLogger "udp" |}.

(** [Init(backendA, backendB)] at process start: [backendA] takes INFO and
    above on destination [bufA], [backendB] takes ERROR and above on
    destination [bufB]. *)
Definition backendA : Backend := bufferLogger "bufA" SeverityInfo.
Definition backendB : Backend := bufferLogger "bufB" SeverityError.

Definition twoBackends : State :=
  Init [Some backendA; Some backendB] initial_state.

(** A package whose syslog constructor returns the nil [Logger] together
    with the nil error, which its result type [(Logger, error)] allows. *)
Definition hollowExternals : Externals :=
  {| SeverityWarn := 2;
     SeverityFatal := 4;
     callerInfo := fun _ => ("main.go", "main.run", 42);
     stackTraces := "goroutine 1 [running]:";
     NewConsoleLogger := newBufferLogger "console";
     NewSysLogger := fun _ => (None, None);
     NewUDPLogger := newBufferLogger "udp" |}.

(* ================================================================== *)
(** ** Properties of severity.go *)

Lemma upper_byte_idempotent (c : ascii) :
  strings.upper_byte (strings.upper_byte c) = strings.upper_byte c.
Proof.
  destruct c as [[] [] [] [] [] [] [] []]; reflexivity.
Qed.

Lemma ToUpperASCII_idempotent (s : string) :
  strings.ToUpperASCII (strings.ToUpperASCII s) = strings.ToUpperASCII s.
Proof.
  induction s as [|c rest IH]; simpl.
  - reflexivity.
  - now rewrite upper_byte_idempotent, IH.
Qed.

(** The search loop finds nothing exactly when the string is not listed. *)
Lemma range_names_None (names : list string) (idx : Z) (s : string) :
  range_names names idx s = None <-> ~ In s names.
Proof.
  revert idx; induction names as [|name rest IH]; intro idx; simpl.
  - tauto.
  - destruct (String.eqb_spec name s) as [E | NE].
    + split; [discriminate | intros H; exfalso; apply H; now left].
    + rewrite IH. tauto.
Qed.

Lemma range_names_Some (names : list string) (idx : Z) (s : string) :
  In s names -> exists i, range_names names idx s = Some i.
Proof.
  intro H. destruct (range_names names idx s) as [i|] eqn:E.
  - now exists i.
  - apply range_names_None in E. contradiction.
Qed.

Section SeverityProperties.

Variable ToUpper : string -> string.

Hypothesis ToUpper_ASCII :
  forall s, strings.isASCII s = true -> ToUpper s = strings.ToUpperASCII s.

Hypothesis ToUpper_idempotent :
  forall s, ToUpper (ToUpper s) = ToUpper s.

(** The parser's answer is a function of the upper-cased name alone. *)
Lemma severityFromString_unfold (s : string) :
  severityFromString ToUpper s =
  match range_names severityNames 0 (ToUpper s) with
  | Some idx => (to_int32 idx, None)
  | None => (-1, Some ("unsupported severity: " ++ ToUpper s))
  end.
Proof. reflexivity. Qed.

(** C4: every defined severity is parsed back from its own name with no
    error, and a name is parsed like its upper-cased form; so ["warn"]
    and ["WARN"] parse alike. *)
Theorem severity_roundtrip_case_insensitive :
  (forall s, In s definedSeverities ->
     exists name,
       Severity_String s = Some name
       /\ severityFromString ToUpper name = (s, None))
  /\ (forall n,
        severityFromString ToUpper n = severityFromString ToUpper (ToUpper n))
  /\ severityFromString ToUpper "warn" = severityFromString ToUpper "WARN".
Proof.
  split; [|split].
  - intros s Hs.
    assert (Hup : forall name, In name severityNames -> ToUpper name = name).
    { intros name Hn. simpl in Hn.
      destruct Hn as [<- | [<- | [<- | [<- | []]]]];
        now rewrite ToUpper_ASCII. }
    simpl in Hs.
    destruct Hs as [<- | [<- | [<- | [<- | []]]]]; eexists;
      (split; [reflexivity |]);
      rewrite severityFromString_unfold, Hup by (simpl; tauto);
      reflexivity.
  - intro n. rewrite !severityFromString_unfold.
    now rewrite ToUpper_idempotent.
  - rewrite !severityFromString_unfold.
    now rewrite !ToUpper_ASCII by reflexivity.
Qed.

(** C5: parsing ends in the unsupported-severity error exactly when the
    upper-cased name is none of DEBUG, INFO, WARN, ERROR, and then the
    result is [-1] with the upper-cased name in the message; ["TRACE"]
    is such a name. *)
Theorem severityFromString_unsupported (name : string) :
  (snd (severityFromString ToUpper name) <> None <->
     ToUpper name <> "DEBUG" /\ ToUpper name <> "INFO"
     /\ ToUpper name <> "WARN" /\ ToUpper name <> "ERROR")
  /\ (snd (severityFromString ToUpper name) <> None ->
        severityFromString ToUpper name
        = (-1, Some ("unsupported severity: " ++ ToUpper name)))
  /\ severityFromString ToUpper "TRACE"
     = (-1, Some "unsupported severity: TRACE").
Proof.
  split; [|split].
  - rewrite severityFromString_unfold.
    destruct (range_names severityNames 0 (ToUpper name)) as [i|] eqn:E;
      simpl.
    + split; [congruence |].
      intros (H1 & H2 & H3 & H4).
      assert (N : range_names severityNames 0 (ToUpper name) = None).
      { apply range_names_None. simpl. intuition congruence. }
      congruence.
    + split; [| discriminate]. intros _.
      apply range_names_None in E. simpl in E.
      repeat split; intro Heq; apply E; rewrite Heq; tauto.
  - rewrite severityFromString_unfold.
    destruct (range_names severityNames 0 (ToUpper name)); simpl;
      [congruence | reflexivity].
  - rewrite severityFromString_unfold.
    now rewrite ToUpper_ASCII by reflexivity.
Qed.

End SeverityProperties.

Lemma severity_roundtrip_case_insensitive_witness :
  (forall s, strings.isASCII s = true ->
     strings.ToUpperASCII s = strings.ToUpperASCII s)
  /\ (forall s, strings.ToUpperASCII (strings.ToUpperASCII s)
                = strings.ToUpperASCII s)
  /\ In SeverityWarning definedSeverities
  /\ (exists name, Severity_String SeverityWarning = Some name
        /\ severityFromString strings.ToUpperASCII name
           = (SeverityWarning, None))
  /\ severityFromString strings.ToUpperASCII "warn" = (2, None)
  /\ severityFromString strings.ToUpperASCII "WARN" = (2, None).
Proof.
  pose proof (severity_roundtrip_case_insensitive strings.ToUpperASCII
                (fun s _ => eq_refl) ToUpperASCII_idempotent) as (RT & _ & _).
  split; [intros; reflexivity |].
  split; [exact ToUpperASCII_idempotent |].
  split; [simpl; tauto |].
  split; [apply RT; simpl; tauto |].
  split; reflexivity.
Defined.

Lemma severityFromString_unsupported_witness :
  (forall s, strings.isASCII s = true ->
     strings.ToUpperASCII s = strings.ToUpperASCII s)
  /\ snd (severityFromString strings.ToUpperASCII "trace") <> None
  /\ severityFromString strings.ToUpperASCII "trace"
     = (-1, Some "unsupported severity: TRACE").
Proof.
  pose proof (severityFromString_unsupported strings.ToUpperASCII
                (fun s _ => eq_refl) "trace") as (_ & Herr & _).
  split; [intros; reflexivity |].
  split; [simpl; discriminate |].
  apply Herr. simpl; discriminate.
Defined.

(** C9: each defined severity has exactly one name, DEBUG, INFO, WARN and
    ERROR in this order, and [String] panics exactly on the integers
    outside the defined range. *)
Theorem Severity_String_total_on_defined :
  Severity_String SeverityDebug = Some "DEBUG"
  /\ Severity_String SeverityInfo = Some "INFO"
  /\ Severity_String SeverityWarning = Some "WARN"
  /\ Severity_String SeverityError = Some "ERROR"
  /\ (forall s, Severity_String s = None <-> ~ In s definedSeverities)
  /\ (forall s, Severity_String s = None <-> s < 0 \/ 3 < s).
Proof.
  assert (R : forall s, Severity_String s = None <-> s < 0 \/ 3 < s).
  { intro s. unfold Severity_String.
    destruct (Z.ltb_spec s 0) as [Hneg | Hpos].
    - split; [intros _; now left | reflexivity].
    - rewrite nth_error_None. unfold severityNames. cbn [List.length]. lia. }
  repeat (split; [reflexivity |]).
  split; [| exact R].
  intro s. rewrite R.
  unfold definedSeverities, SeverityDebug, SeverityInfo, SeverityWarning,
    SeverityError.
  cbn [In]. lia.
Qed.

(* ================================================================== *)
(** ** Properties of log.go *)

Lemma prefix_append (needle rest : string) : prefix needle (needle ++ rest) = true.
Proof.
  induction needle as [|c needle IH]; simpl.
  - now destruct rest.
  - destruct (ascii_dec c c) as [_ | NE]; [exact IH | now elim NE].
Qed.

Lemma append_empty_r (s : string) : s ++ "" = s.
Proof. induction s as [|c s IH]; simpl; [reflexivity | now rewrite IH]. Qed.

Lemma Contains_here (needle rest : string) :
  strings.Contains (needle ++ rest) needle = true.
Proof.
  pose proof (prefix_append needle rest) as P.
  destruct (needle ++ rest); cbn [strings.Contains]; now rewrite P.
Qed.

Lemma Contains_later (before s needle : string) :
  strings.Contains s needle = true ->
  strings.Contains (before ++ s) needle = true.
Proof.
  intro H. induction before as [|c before IH]; [exact H |].
  change (String c before ++ s) with (String c (before ++ s)).
  cbn [strings.Contains]. rewrite IH. now destruct (prefix needle _).
Qed.

Lemma state_eta (st : State) :
  {| loggers := loggers st; message := message st; proc := proc st;
     trace := trace st |} = st.
Proof. now destruct st. Qed.

Section FacadeProperties.

Context {ext : Externals}.

Lemma Init_appends (l : list Logger) (st : State) :
  Init l st = set_loggers (loggers st ++ l)%list st.
Proof.
  revert st; induction l as [|logger rest IH]; intro st; simpl.
  - unfold set_loggers. rewrite app_nil_r. symmetry; apply state_eta.
  - rewrite IH. unfold set_loggers; simpl. now rewrite <- app_assoc.
Qed.

(** Whatever the outcome, [InitWithConfig] only adds at the end of the
    registry. *)
Lemma InitWithConfig_extends (logConfigs : list LogConfig) (st : State) :
  exists added,
    loggers (snd (InitWithConfig logConfigs st)) = (loggers st ++ added)%list.
Proof.
  revert st; induction logConfigs as [|config rest IH]; intro st.
  - exists []. simpl. now rewrite app_nil_r.
  - cbn [InitWithConfig].
    destruct (NewLogger config) as [l [e|]].
    + exists []. simpl. now rewrite app_nil_r.
    + destruct (IH (set_loggers
                      (loggers (record_event (EvNewLogger config) st) ++ [l])%list
                      (record_event (EvNewLogger config) st)))
        as [added Hadded].
      exists (l :: added). rewrite Hadded. simpl. now rewrite <- app_assoc.
Qed.

(** C3: a batch of configurations either constructs every backend, and
    then all of them are appended in order and no error is returned; or it
    has a first configuration [bad] whose construction fails, and then
    that error is returned, [NewLogger] has been called for the
    configurations up to [bad] and for none after it, and the backends of
    the configurations before [bad] stay appended. *)
Theorem InitWithConfig_stops_at_first_failure
    (logConfigs : list LogConfig) (st : State) :
  (Forall (fun c => snd (NewLogger c) = None) logConfigs
   /\ InitWithConfig logConfigs st =
      (None,
       {| loggers := (loggers st ++ map (fun c => fst (NewLogger c)) logConfigs)%list;
          message := message st;
          proc := proc st;
          trace := (trace st ++ map EvNewLogger logConfigs)%list |}))
  \/
  (exists pre bad post e,
     logConfigs = (pre ++ bad :: post)%list
     /\ Forall (fun c => snd (NewLogger c) = None) pre
     /\ snd (NewLogger bad) = Some e
     /\ InitWithConfig logConfigs st =
        (Some e,
         {| loggers := (loggers st ++ map (fun c => fst (NewLogger c)) pre)%list;
            message := message st;
            proc := proc st;
            trace := (trace st ++ map EvNewLogger (pre ++ [bad]))%list |})).
Proof.
  revert st; induction logConfigs as [|config rest IH]; intro st.
  - left. split; [constructor |]. simpl. rewrite !app_nil_r.
    now rewrite state_eta.
  - cbn [InitWithConfig].
    destruct (NewLogger config) as [l err] eqn:E. destruct err as [e|].
    + right. exists [], config, rest, e.
      repeat split; [constructor | now rewrite E |].
      simpl. now rewrite app_nil_r.
    + specialize (IH (set_loggers (loggers (record_event (EvNewLogger config) st)
                                     ++ [l])%list
                                  (record_event (EvNewLogger config) st))).
      destruct IH as [[Hall Hrun] | (pre & bad & post & e & -> & Hpre & Hbad & Hrun)].
      * left. split; [constructor; [now rewrite E | exact Hall] |].
        rewrite Hrun. simpl. rewrite E. simpl. now rewrite <- !app_assoc.
      * right. exists (config :: pre), bad, post, e.
        repeat split; [constructor; [now rewrite E | exact Hpre] | exact Hbad |].
        rewrite Hrun. simpl. rewrite E. simpl. now rewrite <- !app_assoc.
Qed.

(** C6: the names console, syslog and udplog reach their constructors,
    and any other name yields no logger and the error
    "unknown logger: LogConfig(Name=X, Severity=Y)", which contains the
    rendering of the configuration and both of its fields. *)
Theorem NewLogger_dispatch (config : LogConfig) :
  (Name config = "console" -> NewLogger config = NewConsoleLogger config)
  /\ (Name config = "syslog" -> NewLogger config = NewSysLogger config)
  /\ (Name config = "udplog" -> NewLogger config = NewUDPLogger config)
  /\ (Name config <> "console" -> Name config <> "syslog" ->
      Name config <> "udplog" ->
      exists msg,
        NewLogger config = (None, Some msg)
        /\ msg = "unknown logger: LogConfig(Name=" ++ Name config
                 ++ ", Severity=" ++ Severity_ config ++ ")"
        /\ strings.Contains msg (LogConfig_String config) = true
        /\ strings.Contains msg (Name config) = true
        /\ strings.Contains msg (Severity_ config) = true).
Proof.
  unfold NewLogger.
  split; [intros ->; reflexivity |].
  split; [intros ->; reflexivity |].
  split; [intros ->; reflexivity |].
  intros N1 N2 N3.
  apply String.eqb_neq in N1, N2, N3. rewrite N1, N2, N3.
  eexists. split; [reflexivity |].
  split; [reflexivity |].
  split; [| split].
  - apply Contains_later.
    rewrite <- (append_empty_r (LogConfig_String config)) at 1.
    apply Contains_here.
  - apply Contains_later. unfold LogConfig_String.
    apply Contains_later, Contains_here.
  - apply Contains_later. unfold LogConfig_String.
    do 3 apply Contains_later. apply Contains_here.
Qed.

(** *** Emission *)

(** One call of [writeMessage] on a backend appends the writes owed to it
    and leaves the registry and the process status alone. *)
Lemma writeMessage_backend (b : Backend) (sev : Severity) (format : string)
    (args : list value) (st : State) :
  let st' := writeMessage (Some b) 1 sev format args st in
  loggers st' = loggers st
  /\ proc st' = proc st
  /\ trace st' = (trace st ++ writes_of sev format args b)%list.
Proof.
  unfold writeMessage, writes_of. change (1 + 1) with 2.
  destruct (callerInfo 2) as [[fileName funcName] lineNo].
  destruct (Writer b sev) as [w|]; cbn zeta.
  - destruct (sev =? SeverityFatal); simpl;
      repeat split; now rewrite <- ?app_assoc.
  - repeat split. now rewrite app_nil_r.
Qed.

Lemma writeMessage_loggers (logger : Logger) (callDepth : Z) (sev : Severity)
    (format : string) (args : list value) (st : State) :
  loggers (writeMessage logger callDepth sev format args st) = loggers st.
Proof.
  unfold writeMessage.
  destruct (callerInfo (callDepth + 1)) as [[fileName funcName] lineNo].
  destruct logger as [b|]; [| reflexivity].
  destruct (Writer b sev); [| reflexivity].
  cbn zeta. now destruct (sev =? SeverityFatal).
Qed.

(** [writeMessage] never ends the process by an exit. *)
Lemma writeMessage_proc (logger : Logger) (callDepth : Z) (sev : Severity)
    (format : string) (args : list value) (st : State) :
  proc (writeMessage logger callDepth sev format args st) = proc st
  \/ proc (writeMessage logger callDepth sev format args st) = Panicked.
Proof.
  unfold writeMessage.
  destruct (callerInfo (callDepth + 1)) as [[fileName funcName] lineNo].
  destruct logger as [b|]; [| now right].
  left. destruct (Writer b sev); [| reflexivity].
  cbn zeta. now destruct (sev =? SeverityFatal).
Qed.

Lemma range_loggers_loggers (body : Logger -> State -> State)
    (ls : list Logger) (st : State) :
  (forall logger s, loggers (body logger s) = loggers s) ->
  loggers (range_loggers body ls st) = loggers st.
Proof.
  intro Hbody. revert st; induction ls as [|logger rest IH]; intro st; simpl.
  - reflexivity.
  - destruct (proc st); try reflexivity. now rewrite IH, Hbody.
Qed.

Lemma range_loggers_not_exited (body : Logger -> State -> State)
    (ls : list Logger) (st : State) :
  (forall logger s, proc (body logger s) = proc s
                    \/ proc (body logger s) = Panicked) ->
  proc st = Running ->
  proc (range_loggers body ls st) = Running
  \/ proc (range_loggers body ls st) = Panicked.
Proof.
  intro Hbody. revert st; induction ls as [|logger rest IH]; intros st Hrun;
    simpl.
  - now left.
  - rewrite Hrun. destruct (Hbody logger st) as [Same | Panic].
    + apply IH. congruence.
    + destruct rest; simpl; [now right | rewrite Panic; now right].
Qed.

(** A running process whose registry entries are all backends: the writes
    of one emission are those owed to each backend, in registration
    order, and the process keeps running. *)
Lemma range_loggers_backends (sev : Severity) (format : string)
    (args : list value) (bs : list Backend) (st : State) :
  proc st = Running ->
  let st' := range_loggers
               (fun logger => writeMessage logger 1 sev format args)
               (map Some bs) st in
  proc st' = Running
  /\ trace st' = (trace st ++ flat_map (writes_of sev format args) bs)%list.
Proof.
  revert st; induction bs as [|b rest IH]; intros st Hrun; simpl.
  - split; [exact Hrun | now rewrite app_nil_r].
  - rewrite Hrun.
    destruct (writeMessage_backend b sev format args st) as (_ & Hp & Ht).
    destruct (IH (writeMessage (Some b) 1 sev format args st)) as [Hp' Ht'];
      [congruence |].
    split; [exact Hp' |]. rewrite Ht', Ht. now rewrite <- app_assoc.
Qed.

(** What every backend is handed by an emission function: the operand
    list of [FormatMessage] is the one-element list [[VSlice args]]. *)
Lemma Infof_backends (format : string) (args : list value)
    (bs : list Backend) (st : State) :
  proc st = Running -> loggers st = map Some bs ->
  trace (Infof format args st) =
  (trace st ++ flat_map (writes_of SeverityInfo format [VSlice args]) bs)%list.
Proof.
  intros Hrun Hreg. unfold Infof. rewrite Hreg.
  now apply range_loggers_backends.
Qed.

(** No call of [Fatalf] ends a running process by an exit, whatever the
    registry holds. *)
Lemma Fatalf_never_exits (format : string) (args : list value) (st : State) :
  proc st = Running ->
  forall code, proc (Fatalf format args st) <> Exited code.
Proof.
  intros Hrun code. unfold Fatalf.
  destruct (range_loggers_not_exited
              (fun logger => writeMessage logger 1 SeverityFatal format [VSlice args])
              (loggers st) st) as [H | H];
    [intros; apply writeMessage_proc | exact Hrun | congruence | congruence].
Qed.

(** C8: with an empty registry each of the four emission functions
    returns the state it was given: nothing is written, the process does
    not panic, and the registry is still empty. *)
Theorem emission_on_empty_registry (format : string) (args : list value)
    (st : State) :
  loggers st = [] ->
  Infof format args st = st
  /\ Warnf format args st = st
  /\ Errorf format args st = st
  /\ Fatalf format args st = st.
Proof.
  intro Hempty. unfold Infof, Warnf, Errorf, Fatalf. rewrite Hempty.
  repeat split.
Qed.

(** C10: the registry is empty at process start; [Init] and
    [InitWithConfig] leave the registered backends as a prefix of the new
    registry, in the same order; the four emission functions leave the
    registry as it is. *)
Theorem registry_append_only :
  loggers initial_state = []
  /\ (forall l st, loggers (Init l st) = (loggers st ++ l)%list)
  /\ (forall logConfigs st,
        exists added,
          loggers (snd (InitWithConfig logConfigs st))
          = (loggers st ++ added)%list)
  /\ (forall format args st,
        loggers (Infof format args st) = loggers st
        /\ loggers (Warnf format args st) = loggers st
        /\ loggers (Errorf format args st) = loggers st
        /\ loggers (Fatalf format args st) = loggers st).
Proof.
  split; [reflexivity |].
  split; [intros l st; now rewrite Init_appends |].
  split.
  - apply InitWithConfig_extends.
  - intros format args st. unfold Infof, Warnf, Errorf, Fatalf.
    repeat split; apply range_loggers_loggers; intros;
      apply writeMessage_loggers.
Qed.

End FacadeProperties.

Lemma emission_on_empty_registry_witness :
  loggers initial_state = []
  /\ @Fatalf testExternals "x=%d" [VInt 5] initial_state = initial_state
  /\ @Infof testExternals "x=%d" [VInt 5] initial_state = initial_state.
Proof.
  split; [reflexivity |].
  destruct (@emission_on_empty_registry testExternals "x=%d" [VInt 5]
              initial_state eq_refl) as (Hi & _ & _ & Hf).
  split; [exact Hf | exact Hi].
Defined.

(* ================================================================== *)
(** ** The functions run on the concrete package *)

(** [InitWithConfig] on three configurations whose second names no
    backend: the error of the second is returned, the first backend is
    registered, the third was never constructed. *)
Example InitWithConfig_partial :
  let configs := [ {| Name := "console"; Severity_ := "info" |};
                   {| Name := "bogus"; Severity_ := "INFO" |};
                   {| Name := "syslog"; Severity_ := "warn" |} ] in
  let '(err, st) := @InitWithConfig testExternals configs initial_state in
  err = Some "unknown logger: LogConfig(Name=bogus, Severity=INFO)"
  /\ List.length (loggers st) = 1%nat
  /\ trace st = [ EvNewLogger {| Name := "console"; Severity_ := "info" |};
                  EvNewLogger {| Name := "bogus"; Severity_ := "INFO" |} ].
Proof. repeat split. Qed.

Lemma NewLogger_dispatch_witness :
  @NewLogger testExternals {| Name := "bogus"; Severity_ := "INFO" |}
  = (None, Some "unknown logger: LogConfig(Name=bogus, Severity=INFO)")
  /\ @NewLogger testExternals {| Name := "syslog"; Severity_ := "warn" |}
     = newBufferLogger "syslog" {| Name := "syslog"; Severity_ := "warn" |}.
Proof.
  split.
  - destruct (@NewLogger_dispatch testExternals
                {| Name := "bogus"; Severity_ := "INFO" |})
      as (_ & _ & _ & Hother).
    destruct Hother as (msg & -> & -> & _); [discriminate .. |].
    reflexivity.
  - destruct (@NewLogger_dispatch testExternals
                {| Name := "syslog"; Severity_ := "warn" |})
      as (_ & Hsys & _).
    now apply Hsys.
Defined.

(** C1: [Fatalf] with two registered backends that both take fatal
    messages.  Each backend is written its message and then the stack
    traces, in registration order, and [Fatalf] then returns with the
    process still running: no exit takes place. *)
Theorem Fatalf_returns_to_a_running_process :
  let st := @Fatalf testExternals "disk %s" [VString "full"] twoBackends in
  trace st =
    [ EvWrite "bufA" "FATAL main.go:42 main.run: disk [full]";
      EvWrite "bufA" "goroutine 1 [running]:";
      EvWrite "bufB" "FATAL main.go:42 main.run: disk [full]";
      EvWrite "bufB" "goroutine 1 [running]:" ]
  /\ proc st = Running
  /\ (forall code, proc st <> Exited code).
Proof.
  cbv zeta. split; [reflexivity |]. split; [reflexivity |].
  intro code. now apply Fatalf_never_exits.
Qed.

(** C2: [Infof("x=%d", 5)] after [Init(backendA, backendB)].  [backendB],
    whose writer for INFO is nil, gets nothing and [backendA] gets one
    message; but its text is ["x=[5]"], which does not contain ["x=5"],
    whereas [writeMessage] called with the operand [5] itself writes
    ["x=5"]. *)
Theorem Infof_message_lacks_formatted_operand :
  Writer backendA SeverityInfo = Some "bufA"
  /\ Writer backendB SeverityInfo = None
  /\ trace (@Infof testExternals "x=%d" [VInt 5] twoBackends)
     = [ EvWrite "bufA" "INFO main.go:42 main.run: x=[5]" ]
  /\ strings.Contains "INFO main.go:42 main.run: x=[5]" "x=5" = false
  /\ trace (@writeMessage testExternals (Some backendA) 1 SeverityInfo "x=%d"
              [VInt 5] twoBackends)
     = [ EvWrite "bufA" "INFO main.go:42 main.run: x=5" ].
Proof. repeat split. Qed.

(** C7: [Errorf("disk %s", "full")] after [Init(backendA, backendB)].
    Both writers are non-nil and both backends are written once, in
    registration order; the string written is [FormatMessage] applied to
    the severity, the location, the format and the ONE operand
    [[full]] (the slice of the call's operands), which differs from
    [FormatMessage] applied to the call's operand ["full"]. *)
Theorem Errorf_formats_the_operand_slice :
  let wrapped b := FormatMessage b SeverityError "main.go" "main.run" 42
                     "disk %s" [VSlice [VString "full"]] in
  let direct b := FormatMessage b SeverityError "main.go" "main.run" 42
                    "disk %s" [VString "full"] in
  trace (@Errorf testExternals "disk %s" [VString "full"] twoBackends)
  = [ EvWrite "bufA" (wrapped backendA); EvWrite "bufB" (wrapped backendB) ]
  /\ wrapped backendA = "ERROR main.go:42 main.run: disk [full]"
  /\ direct backendA = "ERROR main.go:42 main.run: disk full"
  /\ wrapped backendA <> direct backendA.
Proof. repeat split. discriminate. Qed.

(* ================================================================== *)
(** ** Further properties of severity.go *)

Lemma to_int32_small (z : Z) : 0 <= z < 2 ^ 31 -> to_int32 z = z.
Proof.
  intro H. unfold to_int32.
  rewrite Z.mod_small by lia. lia.
Qed.

(** A hit of the search loop is the position of the string in the table. *)
Lemma range_names_hit (names : list string) (idx i : Z) (s : string) :
  range_names names idx s = Some i ->
  idx <= i < idx + Z.of_nat (List.length names)
  /\ nth_error names (Z.to_nat (i - idx)) = Some s.
Proof.
  revert idx; induction names as [|name rest IH]; intros idx H; simpl in H.
  - discriminate.
  - destruct (String.eqb_spec name s) as [-> | NE].
    + injection H as <-. cbn [List.length].
      split; [lia |]. now rewrite Z.sub_diag.
    + apply IH in H. destruct H as [Hrange Hnth]. cbn [List.length].
      split; [lia |].
      replace (Z.to_nat (i - idx)) with (S (Z.to_nat (i - (idx + 1)))) by lia.
      exact Hnth.
Qed.

Lemma Severity_String_defined (s : Severity) (name : string) :
  Severity_String s = Some name -> s = 0 \/ s = 1 \/ s = 2 \/ s = 3.
Proof.
  unfold Severity_String. destruct (Z.ltb_spec s 0) as [|Hpos]; [discriminate |].
  intro H.
  assert (Hlt : (Z.to_nat s < List.length severityNames)%nat).
  { apply nth_error_Some. congruence. }
  unfold severityNames in Hlt. cbn [List.length] in Hlt. lia.
Qed.

Section SeverityParsing.

Variable ToUpper : string -> string.

(** A parse without error is a position of the upper-cased name in the
    table, unchanged by the 32-bit conversion. *)
Lemma severityFromString_success (name : string) :
  snd (severityFromString ToUpper name) = None ->
  0 <= fst (severityFromString ToUpper name) <= 3
  /\ Severity_String (fst (severityFromString ToUpper name))
     = Some (ToUpper name).
Proof.
  unfold severityFromString.
  destruct (range_names severityNames 0 (ToUpper name)) as [i|] eqn:E;
    [intros _ | discriminate].
  apply range_names_hit in E. destruct E as [Hrange Hnth].
  unfold severityNames in Hrange. cbn [List.length] in Hrange.
  cbn [fst]. rewrite to_int32_small by lia.
  split; [lia |].
  unfold Severity_String. destruct (Z.ltb_spec i 0) as [|_]; [lia |].
  now rewrite Z.sub_0_r in Hnth.
Qed.

(** X1: when [severityFromString] returns no error, the severity it
    returns is one of the four defined ones and its [String] is the
    upper-cased input. *)
Theorem severityFromString_then_String (name : string) :
  snd (severityFromString ToUpper name) = None ->
  In (fst (severityFromString ToUpper name)) definedSeverities
  /\ Severity_String (fst (severityFromString ToUpper name))
     = Some (ToUpper name).
Proof.
  intro Hok. destruct (severityFromString_success name Hok) as [Hrange Hstr].
  split; [| exact Hstr].
  unfold definedSeverities, SeverityDebug, SeverityInfo, SeverityWarning,
    SeverityError. cbn [In]. lia.
Qed.

(** X2: when [severityFromString] returns an error, the severity beside
    it is [-1], and calling [String] on that value panics. *)
Theorem severityFromString_error_value (name : string) :
  snd (severityFromString ToUpper name) <> None ->
  fst (severityFromString ToUpper name) = -1
  /\ Severity_String (fst (severityFromString ToUpper name)) = None.
Proof.
  unfold severityFromString.
  destruct (range_names severityNames 0 (ToUpper name)); cbn [fst snd].
  - congruence.
  - intros _. split; reflexivity.
Qed.

(** X4: two names that both parse without error get the same severity
    exactly when their upper-cased forms are the same string. *)
Theorem severityFromString_same_severity (n1 n2 : string) :
  snd (severityFromString ToUpper n1) = None ->
  snd (severityFromString ToUpper n2) = None ->
  (fst (severityFromString ToUpper n1) = fst (severityFromString ToUpper n2)
   <-> ToUpper n1 = ToUpper n2).
Proof.
  intros H1 H2.
  destruct (severityFromString_success n1 H1) as [_ S1].
  destruct (severityFromString_success n2 H2) as [_ S2].
  split.
  - intro Heq. rewrite Heq in S1. congruence.
  - intro Heq. unfold severityFromString. now rewrite Heq.
Qed.

End SeverityParsing.

(** X3: no two severities share a name: [String] is injective wherever it
    does not panic. *)
Theorem Severity_String_injective (s t : Severity) (name : string) :
  Severity_String s = Some name -> Severity_String t = Some name -> s = t.
Proof.
  intros Hs Ht.
  destruct (Severity_String_defined s name Hs) as [-> | [-> | [-> | ->]]];
    destruct (Severity_String_defined t name Ht) as [-> | [-> | [-> | ->]]];
    vm_compute in Hs, Ht; congruence.
Qed.

Lemma severityFromString_then_String_witness :
  snd (severityFromString strings.ToUpperASCII "Error") = None
  /\ fst (severityFromString strings.ToUpperASCII "Error") = SeverityError
  /\ Severity_String (fst (severityFromString strings.ToUpperASCII "Error"))
     = Some "ERROR".
Proof.
  split; [reflexivity |]. split; [reflexivity |].
  exact (proj2 (severityFromString_then_String strings.ToUpperASCII "Error"
                  eq_refl)).
Defined.

Lemma severityFromString_error_value_witness :
  snd (severityFromString strings.ToUpperASCII "fatal") <> None
  /\ fst (severityFromString strings.ToUpperASCII "fatal") = -1
  /\ Severity_String (fst (severityFromString strings.ToUpperASCII "fatal"))
     = None.
Proof.
  assert (H : snd (severityFromString strings.ToUpperASCII "fatal") <> None)
    by (simpl; discriminate).
  split; [exact H |].
  exact (severityFromString_error_value strings.ToUpperASCII "fatal" H).
Defined.

Lemma severityFromString_same_severity_witness :
  snd (severityFromString strings.ToUpperASCII "info") = None
  /\ snd (severityFromString strings.ToUpperASCII "Info") = None
  /\ fst (severityFromString strings.ToUpperASCII "info")
     = fst (severityFromString strings.ToUpperASCII "Info").
Proof.
  split; [reflexivity |]. split; [reflexivity |].
  apply (severityFromString_same_severity strings.ToUpperASCII "info" "Info"
           eq_refl eq_refl).
  reflexivity.
Defined.

Lemma Severity_String_injective_witness :
  Severity_String SeverityWarning = Some "WARN"
  /\ Severity_String (fst (severityFromString strings.ToUpperASCII "warn"))
     = Some "WARN"
  /\ SeverityWarning = fst (severityFromString strings.ToUpperASCII "warn").
Proof.
  split; [reflexivity |]. split; [reflexivity |].
  exact (Severity_String_injective SeverityWarning
           (fst (severityFromString strings.ToUpperASCII "warn")) "WARN"
           eq_refl eq_refl).
Defined.

(* ================================================================== *)
(** ** Further properties of log.go *)

Lemma last_nonempty_default {A : Type} (y d d' : A) (l : list A) :
  last (y :: l) d = last (y :: l) d'.
Proof.
  revert y; induction l as [|z l IH]; intro y; [reflexivity |].
  change (last (y :: z :: l) d) with (last (z :: l) d).
  change (last (y :: z :: l) d') with (last (z :: l) d').
  apply IH.
Qed.

Lemma last_cons_default {A : Type} (x d : A) (l : list A) :
  last (x :: l) d = last l x.
Proof.
  destruct l as [|y l]; [reflexivity |].
  change (last (x :: y :: l) d) with (last (y :: l) d).
  apply last_nonempty_default.
Qed.

Section FacadeComposition.

Context {ext : Externals}.

(** Each emission function is the loop over the registry around
    [writeMessage], at its own severity and with its operands in one
    slice. *)
Lemma emissions_unfold emit sev (format : string) (args : list value)
    (st : State) :
  In (emit, sev) emissions ->
  emit format args st =
  range_loggers (fun logger => writeMessage logger 1 sev format [VSlice args])
                (loggers st) st.
Proof.
  unfold emissions. cbn [In].
  intros [H | [H | [H | [H | []]]]]; injection H as <- <-; reflexivity.
Qed.

Lemma range_loggers_stopped (body : Logger -> State -> State)
    (ls : list Logger) (st : State) :
  proc st <> Running -> range_loggers body ls st = st.
Proof.
  intro H. destruct ls as [|logger rest]; [reflexivity |]. simpl.
  destruct (proc st); congruence.
Qed.

Lemma range_loggers_app (body : Logger -> State -> State)
    (l1 l2 : list Logger) (st : State) :
  range_loggers body (l1 ++ l2)%list st
  = range_loggers body l2 (range_loggers body l1 st).
Proof.
  revert st; induction l1 as [|logger rest IH]; intro st; [reflexivity |].
  cbn [app range_loggers].
  destruct (proc st) eqn:E; [apply IH | |];
    symmetry; apply range_loggers_stopped; congruence.
Qed.

(** The outcome of the loop for the process: a panic exactly when the
    registry holds a nil [Logger]. *)
Lemma range_loggers_proc (sev : Severity) (format : string)
    (args : list value) (ls : list Logger) (st : State) :
  proc st = Running ->
  let st' := range_loggers
               (fun logger => writeMessage logger 1 sev format args) ls st in
  (In None ls -> proc st' = Panicked)
  /\ (~ In None ls -> proc st' = Running).
Proof.
  revert st; induction ls as [|[b|] rest IH]; intros st Hrun; cbn zeta.
  - split; [intros [] | intros _; exact Hrun].
  - cbn [range_loggers]. rewrite Hrun.
    destruct (writeMessage_backend b sev format args st) as (_ & Hp & _).
    destruct (IH (writeMessage (Some b) 1 sev format args st)) as [Hin Hout];
      [congruence |].
    split.
    + intros [Habs | Hrest]; [discriminate | now apply Hin].
    + intro Hno. apply Hout. intro Hrest. apply Hno. now right.
  - cbn [range_loggers]. rewrite Hrun.
    split; [intros _ | intro Hno; exfalso; apply Hno; now left].
    rewrite range_loggers_stopped.
    + unfold writeMessage. now destruct (callerInfo (1 + 1)) as [[? ?] ?].
    + unfold writeMessage. destruct (callerInfo (1 + 1)) as [[? ?] ?].
      discriminate.
Qed.

(** The package variable [message] after the loop over backends: the
    text formatted for the last backend that returned a writer. *)
Lemma range_loggers_message (sev : Severity) (format : string)
    (args : list value) (bs : list Backend) (st : State) :
  proc st = Running ->
  message (range_loggers
             (fun logger => writeMessage logger 1 sev format args)
             (map Some bs) st)
  = last (flat_map
            (fun b =>
               match Writer b sev with
               | Some _ =>
                   [FormatMessage b sev (fst (fst (callerInfo 2)))
                      (snd (fst (callerInfo 2))) (snd (callerInfo 2))
                      format args]
               | None => []
               end) bs)
         (message st).
Proof.
  revert st; induction bs as [|b rest IH]; intros st Hrun; [reflexivity |].
  cbn [map range_loggers flat_map]. rewrite Hrun.
  destruct (writeMessage_backend b sev format args st) as (_ & Hp & _).
  rewrite IH by congruence.
  unfold writeMessage. change (1 + 1) with 2.
  destruct (callerInfo 2) as [[fileName funcName] lineNo]. cbn [fst snd].
  destruct (Writer b sev) as [w|]; [| reflexivity].
  cbn zeta. cbn [app]. rewrite last_cons_default.
  now destruct (sev =? SeverityFatal).
Qed.

(** Every event the loop appends is a write to a writer that a registered
    backend returned for the severity. *)
Lemma range_loggers_events (sev : Severity) (format : string)
    (args : list value) (ls : list Logger) (st : State) :
  exists evs,
    trace (range_loggers
             (fun logger => writeMessage logger 1 sev format args) ls st)
    = (trace st ++ evs)%list
    /\ Forall (fun e => exists b w s,
                 e = EvWrite w s /\ In (Some b) ls /\ Writer b sev = Some w)
              evs.
Proof.
  revert st; induction ls as [|logger rest IH]; intro st.
  - exists []. split; [now rewrite app_nil_r | constructor].
  - cbn [range_loggers].
    destruct (proc st);
      try (exists []; split; [now rewrite app_nil_r | constructor]).
    destruct (IH (writeMessage logger 1 sev format args st))
      as (evs & Htrace & Hall).
    assert (Hrest : Forall (fun e => exists b w s,
                       e = EvWrite w s /\ In (Some b) (logger :: rest)
                       /\ Writer b sev = Some w) evs).
    { eapply Forall_impl; [| exact Hall].
      intros e (b & w & s & He & Hin & Hw). exists b, w, s.
      repeat split; [exact He | now right | exact Hw]. }
    destruct logger as [b|].
    + destruct (writeMessage_backend b sev format args st) as (_ & _ & Ht).
      exists (writes_of sev format args b ++ evs)%list.
      split; [rewrite Htrace, Ht; now rewrite <- app_assoc |].
      apply Forall_app. split; [| exact Hrest].
      unfold writes_of. destruct (Writer b sev) as [w|] eqn:Hw;
        [| constructor].
      destruct (callerInfo 2) as [[fileName funcName] lineNo].
      constructor.
      * exists b, w. eexists. repeat split; [now left | exact Hw].
      * destruct (sev =? SeverityFatal); constructor; [| constructor].
        exists b, w. eexists. repeat split; [now left | exact Hw].
    + exists evs. split; [| exact Hrest].
      rewrite Htrace. unfold writeMessage.
      now destruct (callerInfo (1 + 1)) as [[? ?] ?].
Qed.

End FacadeComposition.

Section FacadeFurther.

Context {ext : Externals}.

Lemma writeMessage_nil (callDepth : Z) (sev : Severity) (format : string)
    (args : list value) (st : State) :
  writeMessage None callDepth sev format args st = set_proc Panicked st.
Proof.
  unfold writeMessage.
  now destruct (callerInfo (callDepth + 1)) as [[fileName funcName] lineNo].
Qed.

(** X5: two calls of [Init] register what one call with both argument
    lists registers, and [Init] touches nothing but the registry. *)
Theorem Init_compose (l1 l2 : list Logger) (st : State) :
  Init l2 (Init l1 st) = Init (l1 ++ l2)%list st
  /\ trace (Init l1 st) = trace st
  /\ proc (Init l1 st) = proc st
  /\ message (Init l1 st) = message st.
Proof.
  rewrite !Init_appends. unfold set_loggers; simpl.
  repeat split. now rewrite app_assoc.
Qed.

(** X6: [InitWithConfig] on a concatenated batch runs the first part and,
    if that returned no error, goes on with the second part from the
    state reached; if the first part failed, its error and state are the
    result and the second part plays no role. *)
Theorem InitWithConfig_compose (c1 c2 : list LogConfig) (st : State) :
  InitWithConfig (c1 ++ c2)%list st =
  match InitWithConfig c1 st with
  | (None, st1) => InitWithConfig c2 st1
  | (Some e, st1) => (Some e, st1)
  end.
Proof.
  revert st; induction c1 as [|config rest IH]; intro st; [reflexivity |].
  cbn [app InitWithConfig].
  destruct (NewLogger config) as [l [e|]]; [reflexivity | apply IH].
Qed.

(** X7: in a running process an emission function panics when the
    registry holds a nil [Logger], and otherwise leaves the process
    running. *)
Theorem emission_panics_iff_nil_logger emit sev (format : string)
    (args : list value) (st : State) :
  In (emit, sev) emissions ->
  proc st = Running ->
  (In None (loggers st) -> proc (emit format args st) = Panicked)
  /\ (~ In None (loggers st) -> proc (emit format args st) = Running).
Proof.
  intros Hemit Hrun. rewrite (emissions_unfold emit sev) by exact Hemit.
  now apply range_loggers_proc.
Qed.

(** X8: [InitWithConfig] does not check the logger a constructor returns:
    when the constructor reports no error but returns nil, nil is
    registered, no error is returned, and the next emission panics. *)
Theorem InitWithConfig_registers_nil_logger (config : LogConfig) emit sev
    (format : string) (args : list value) (st : State) :
  NewLogger config = (None, None) ->
  In (emit, sev) emissions ->
  proc st = Running ->
  fst (InitWithConfig [config] st) = None
  /\ loggers (snd (InitWithConfig [config] st)) = (loggers st ++ [None])%list
  /\ proc (emit format args (snd (InitWithConfig [config] st))) = Panicked.
Proof.
  intros Hnil Hemit Hrun. cbn [InitWithConfig]. rewrite Hnil. cbn [fst snd].
  split; [reflexivity |]. split; [reflexivity |].
  rewrite (emissions_unfold emit sev) by exact Hemit.
  apply range_loggers_proc; [exact Hrun |].
  cbn [set_loggers record_event loggers]. apply in_or_app. right. now left.
Qed.

(** X9: with a nil [Logger] in the registry, the backends registered
    before it are written as usual, then the process panics, and the
    entries after it are never reached. *)
Theorem emission_stops_at_nil_logger emit sev (format : string)
    (args : list value) (bs : list Backend) (rest : list Logger)
    (st : State) :
  In (emit, sev) emissions ->
  proc st = Running ->
  loggers st = (map Some bs ++ None :: rest)%list ->
  proc (emit format args st) = Panicked
  /\ trace (emit format args st)
     = (trace st ++ flat_map (writes_of sev format [VSlice args]) bs)%list.
Proof.
  intros Hemit Hrun Hreg. rewrite (emissions_unfold emit sev) by exact Hemit.
  rewrite Hreg, range_loggers_app.
  destruct (range_loggers_backends sev format [VSlice args] bs st Hrun)
    as [Hp Ht].
  cbn [range_loggers]. rewrite Hp, writeMessage_nil.
  rewrite range_loggers_stopped by discriminate.
  split; [reflexivity | exact Ht].
Qed.

(** X10: when every registered backend returns the nil writer for the
    severity, the emission function returns the state it was given. *)
Theorem emission_suppressed_is_noop emit sev (format : string)
    (args : list value) (bs : list Backend) (st : State) :
  In (emit, sev) emissions ->
  loggers st = map Some bs ->
  Forall (fun b => Writer b sev = None) bs ->
  emit format args st = st.
Proof.
  intros Hemit Hreg Hall. rewrite (emissions_unfold emit sev) by exact Hemit.
  rewrite Hreg. clear Hreg.
  induction Hall as [|b rest Hb _ IH]; [reflexivity |].
  cbn [map range_loggers]. destruct (proc st); try reflexivity.
  replace (writeMessage (Some b) 1 sev format [VSlice args] st) with st;
    [exact IH |].
  unfold writeMessage. destruct (callerInfo (1 + 1)) as [[? ?] ?].
  now rewrite Hb.
Qed.

(** X11: [Fatalf] on a registry of backends writes, for each backend
    that returns a writer for [SeverityFatal] and in registration order,
    the formatted message and then the stack traces, both to that
    writer; the location comes from [callerInfo(2)], and the process
    keeps running. *)
Theorem Fatalf_message_then_stackTraces (format : string)
    (args : list value) (bs : list Backend) (st : State) :
  proc st = Running ->
  loggers st = map Some bs ->
  proc (Fatalf format args st) = Running
  /\ trace (Fatalf format args st)
     = (trace st
        ++ flat_map
             (fun b =>
                match Writer b SeverityFatal with
                | None => []
                | Some w =>
                    [ EvWrite w
                        (FormatMessage b SeverityFatal
                           (fst (fst (callerInfo 2))) (snd (fst (callerInfo 2)))
                           (snd (callerInfo 2)) format [VSlice args]);
                      EvWrite w stackTraces ]
                end) bs)%list.
Proof.
  intros Hrun Hreg. unfold Fatalf. rewrite Hreg.
  destruct (range_loggers_backends SeverityFatal format [VSlice args] bs st
              Hrun) as [Hp Ht].
  split; [exact Hp |]. rewrite Ht. f_equal.
  apply flat_map_ext. intro b. unfold writes_of.
  destruct (callerInfo 2) as [[fileName funcName] lineNo].
  now rewrite Z.eqb_refl.
Qed.

(** X12: at a severity other than [SeverityFatal], an emission function
    on a registry of backends writes exactly one string, the formatted
    message, to each backend that returns a writer, in registration
    order, and no stack traces. *)
Theorem emission_single_write emit sev (format : string)
    (args : list value) (bs : list Backend) (st : State) :
  In (emit, sev) emissions ->
  sev <> SeverityFatal ->
  proc st = Running ->
  loggers st = map Some bs ->
  trace (emit format args st)
  = (trace st
     ++ flat_map
          (fun b =>
             match Writer b sev with
             | None => []
             | Some w =>
                 [ EvWrite w
                     (FormatMessage b sev
                        (fst (fst (callerInfo 2))) (snd (fst (callerInfo 2)))
                        (snd (callerInfo 2)) format [VSlice args]) ]
             end) bs)%list.
Proof.
  intros Hemit Hsev Hrun Hreg.
  rewrite (emissions_unfold emit sev) by exact Hemit. rewrite Hreg.
  destruct (range_loggers_backends sev format [VSlice args] bs st Hrun)
    as [_ Ht].
  rewrite Ht. f_equal.
  apply flat_map_ext. intro b. unfold writes_of.
  destruct (callerInfo 2) as [[fileName funcName] lineNo].
  apply Z.eqb_neq in Hsev. now rewrite Hsev.
Qed.

(** X13: after an emission on a registry of backends, the package
    variable [message] holds the text formatted for the last backend
    that returned a writer, and its old value when none did. *)
Theorem emission_sets_message emit sev (format : string)
    (args : list value) (bs : list Backend) (st : State) :
  In (emit, sev) emissions ->
  proc st = Running ->
  loggers st = map Some bs ->
  message (emit format args st)
  = last (flat_map
            (fun b =>
               match Writer b sev with
               | Some _ =>
                   [FormatMessage b sev (fst (fst (callerInfo 2)))
                      (snd (fst (callerInfo 2))) (snd (callerInfo 2))
                      format [VSlice args]]
               | None => []
               end) bs)
         (message st).
Proof.
  intros Hemit Hrun Hreg.
  rewrite (emissions_unfold emit sev) by exact Hemit. rewrite Hreg.
  now apply range_loggers_message.
Qed.

(** X14: whatever the registry and the process status, an emission
    function only appends to the trace, and every event it appends is a
    write to a writer that a registered backend returned for the
    severity: it constructs no logger and writes nowhere else. *)
Theorem emission_writes_to_registered_writers emit sev (format : string)
    (args : list value) (st : State) :
  In (emit, sev) emissions ->
  exists evs,
    trace (emit format args st) = (trace st ++ evs)%list
    /\ Forall (fun e => exists b w s,
                 e = EvWrite w s /\ In (Some b) (loggers st)
                 /\ Writer b sev = Some w)
              evs.
Proof.
  intro Hemit. rewrite (emissions_unfold emit sev) by exact Hemit.
  apply range_loggers_events.
Qed.

(** X15: [InitWithConfig] at process start on a batch whose first
    configuration constructs the backend [b] and whose second fails:
    the error is returned, and a following [Infof] still reaches [b]. *)
Theorem partial_InitWithConfig_reaches_first_backend
    (good bad : LogConfig) (rest : list LogConfig) (b : Backend) (e : error)
    (format : string) (args : list value) :
  NewLogger good = (Some b, None) ->
  snd (NewLogger bad) = Some e ->
  fst (InitWithConfig (good :: bad :: rest) initial_state) = Some e
  /\ trace (Infof format args
              (snd (InitWithConfig (good :: bad :: rest) initial_state)))
     = ([EvNewLogger good; EvNewLogger bad]
        ++ writes_of SeverityInfo format [VSlice args] b)%list.
Proof.
  intros Hgood Hbad. cbn [InitWithConfig]. rewrite Hgood.
  destruct (NewLogger bad) as [l err]. cbn [snd] in Hbad. subst err.
  cbn [fst snd]. split; [reflexivity |].
  rewrite (Infof_backends format args [b]); [| reflexivity | reflexivity].
  cbn [flat_map]. now rewrite app_nil_r.
Qed.

(** X16: two emissions in a row on a registry of backends: the second
    finds the registry and the running process as the first did, so the
    trace gains the writes of the first call and then those of the
    second. *)
Theorem emissions_in_sequence emit1 sev1 emit2 sev2
    (format1 format2 : string) (args1 args2 : list value)
    (bs : list Backend) (st : State) :
  In (emit1, sev1) emissions ->
  In (emit2, sev2) emissions ->
  proc st = Running ->
  loggers st = map Some bs ->
  trace (emit2 format2 args2 (emit1 format1 args1 st))
  = (trace st
     ++ flat_map (writes_of sev1 format1 [VSlice args1]) bs
     ++ flat_map (writes_of sev2 format2 [VSlice args2]) bs)%list.
Proof.
  intros H1 H2 Hrun Hreg.
  assert (Hreg1 : loggers (emit1 format1 args1 st) = map Some bs).
  { rewrite (emissions_unfold emit1 sev1) by exact H1.
    rewrite range_loggers_loggers; [exact Hreg |].
    intros; apply writeMessage_loggers. }
  rewrite (emissions_unfold emit2 sev2) by exact H2. rewrite Hreg1.
  rewrite (emissions_unfold emit1 sev1) by exact H1. rewrite Hreg.
  destruct (range_loggers_backends sev1 format1 [VSlice args1] bs st Hrun)
    as [Hp1 Ht1].
  destruct (range_loggers_backends sev2 format2 [VSlice args2] bs _ Hp1)
    as [_ Ht2].
  rewrite Ht2, Ht1. now rewrite <- app_assoc.
Qed.

End FacadeFurther.


(* ================================================================== *)
(** ** The further properties on the concrete package *)

Lemma emission_panics_iff_nil_logger_witness :
  In (@Errorf testExternals, SeverityError) (@emissions testExternals)
  /\ proc (Init [Some backendA; None] initial_state) = Running
  /\ In None (loggers (Init [Some backendA; None] initial_state))
  /\ proc (@Errorf testExternals "disk %s" [VString "full"]
             (Init [Some backendA; None] initial_state)) = Panicked.
Proof.
  assert (He : In (@Errorf testExternals, SeverityError)
                  (@emissions testExternals))
    by (right; right; left; reflexivity).
  assert (Hn : In None (loggers (Init [Some backendA; None] initial_state)))
    by (right; left; reflexivity).
  split; [exact He |]. split; [reflexivity |]. split; [exact Hn |].
  exact (proj1 (@emission_panics_iff_nil_logger testExternals _ _
                  "disk %s" [VString "full"]
                  (Init [Some backendA; None] initial_state) He eq_refl) Hn).
Defined.

Lemma InitWithConfig_registers_nil_logger_witness :
  @NewLogger hollowExternals {| Name := "syslog"; Severity_ := "info" |}
  = (None, None)
  /\ In (@Infof hollowExternals, SeverityInfo) (@emissions hollowExternals)
  /\ proc initial_state = Running
  /\ fst (@InitWithConfig hollowExternals
            [{| Name := "syslog"; Severity_ := "info" |}] initial_state)
     = None
  /\ proc (@Infof hollowExternals "x=%d" [VInt 5]
             (snd (@InitWithConfig hollowExternals
                     [{| Name := "syslog"; Severity_ := "info" |}]
                     initial_state)))
     = Panicked.
Proof.
  assert (He : In (@Infof hollowExternals, SeverityInfo)
                  (@emissions hollowExternals))
    by (left; reflexivity).
  split; [reflexivity |]. split; [exact He |]. split; [reflexivity |].
  destruct (@InitWithConfig_registers_nil_logger hollowExternals
              {| Name := "syslog"; Severity_ := "info" |} _ _
              "x=%d" [VInt 5] initial_state eq_refl He eq_refl)
    as (Herr & _ & Hpanic).
  split; [exact Herr | exact Hpanic].
Defined.

Lemma emission_stops_at_nil_logger_witness :
  In (@Errorf testExternals, SeverityError) (@emissions testExternals)
  /\ loggers (Init [Some backendA; None; Some backendB] initial_state)
     = (map Some [backendA] ++ None :: [Some backendB])%list
  /\ proc (@Errorf testExternals "disk %s" [VString "full"]
             (Init [Some backendA; None; Some backendB] initial_state))
     = Panicked
  /\ trace (@Errorf testExternals "disk %s" [VString "full"]
              (Init [Some backendA; None; Some backendB] initial_state))
     = [EvWrite "bufA" "ERROR main.go:42 main.run: disk [full]"].
Proof.
  assert (He : In (@Errorf testExternals, SeverityError)
                  (@emissions testExternals))
    by (right; right; left; reflexivity).
  split; [exact He |]. split; [reflexivity |].
  exact (@emission_stops_at_nil_logger testExternals _ _
           "disk %s" [VString "full"] [backendA] [Some backendB]
           (Init [Some backendA; None; Some backendB] initial_state)
           He eq_refl eq_refl).
Defined.

Lemma emission_suppressed_is_noop_witness :
  In (@Infof testExternals, SeverityInfo) (@emissions testExternals)
  /\ Forall (fun b => Writer b SeverityInfo = None) [backendB]
  /\ @Infof testExternals "x=%d" [VInt 5] (Init [Some backendB] initial_state)
     = Init [Some backendB] initial_state.
Proof.
  assert (He : In (@Infof testExternals, SeverityInfo)
                  (@emissions testExternals))
    by (left; reflexivity).
  assert (Hq : Forall (fun b => Writer b SeverityInfo = None) [backendB])
    by (constructor; [reflexivity | constructor]).
  split; [exact He |]. split; [exact Hq |].
  exact (@emission_suppressed_is_noop testExternals _ _ "x=%d" [VInt 5]
           [backendB] (Init [Some backendB] initial_state) He eq_refl Hq).
Defined.

Lemma Fatalf_message_then_stackTraces_witness :
  proc twoBackends = Running
  /\ loggers twoBackends = map Some [backendA; backendB]
  /\ proc (@Fatalf testExternals "x=%d" [VInt 5] twoBackends) = Running
  /\ trace (@Fatalf testExternals "x=%d" [VInt 5] twoBackends)
     = [ EvWrite "bufA" "FATAL main.go:42 main.run: x=[5]";
         EvWrite "bufA" "goroutine 1 [running]:";
         EvWrite "bufB" "FATAL main.go:42 main.run: x=[5]";
         EvWrite "bufB" "goroutine 1 [running]:" ].
Proof.
  split; [reflexivity |]. split; [reflexivity |].
  exact (@Fatalf_message_then_stackTraces testExternals "x=%d" [VInt 5]
           [backendA; backendB] twoBackends eq_refl eq_refl).
Defined.

Lemma emission_single_write_witness :
  In (@Warnf testExternals, @SeverityWarn testExternals)
     (@emissions testExternals)
  /\ @SeverityWarn testExternals <> @SeverityFatal testExternals
  /\ trace (@Warnf testExternals "x=%d" [VInt 5] twoBackends)
     = [EvWrite "bufA" "WARN main.go:42 main.run: x=[5]"].
Proof.
  assert (He : In (@Warnf testExternals, @SeverityWarn testExternals)
                  (@emissions testExternals))
    by (right; left; reflexivity).
  assert (Hs : @SeverityWarn testExternals <> @SeverityFatal testExternals)
    by (cbv; discriminate).
  split; [exact He |]. split; [exact Hs |].
  exact (@emission_single_write testExternals _ _ "x=%d" [VInt 5]
           [backendA; backendB] twoBackends He Hs eq_refl eq_refl).
Defined.

Lemma emission_sets_message_witness :
  In (@Infof testExternals, SeverityInfo) (@emissions testExternals)
  /\ message twoBackends = ""
  /\ message (@Infof testExternals "x=%d" [VInt 5] twoBackends)
     = "INFO main.go:42 main.run: x=[5]".
Proof.
  assert (He : In (@Infof testExternals, SeverityInfo)
                  (@emissions testExternals))
    by (left; reflexivity).
  split; [exact He |]. split; [reflexivity |].
  exact (@emission_sets_message testExternals _ _ "x=%d" [VInt 5]
           [backendA; backendB] twoBackends He eq_refl eq_refl).
Defined.

Lemma emission_writes_to_registered_writers_witness :
  In (@Errorf testExternals, SeverityError) (@emissions testExternals)
  /\ exists evs,
       trace (@Errorf testExternals "disk %s" [VString "full"] twoBackends)
       = (trace twoBackends ++ evs)%list
       /\ Forall (fun e => exists b w s,
                    e = EvWrite w s /\ In (Some b) (loggers twoBackends)
                    /\ Writer b SeverityError = Some w)
                 evs.
Proof.
  assert (He : In (@Errorf testExternals, SeverityError)
                  (@emissions testExternals))
    by (right; right; left; reflexivity).
  split; [exact He |].
  exact (@emission_writes_to_registered_writers testExternals _ _
           "disk %s" [VString "full"] twoBackends He).
Defined.

Lemma partial_InitWithConfig_reaches_first_backend_witness :
  @NewLogger testExternals {| Name := "console"; Severity_ := "info" |}
  = (Some (bufferLogger "console" SeverityInfo), None)
  /\ snd (@NewLogger testExternals {| Name := "bogus"; Severity_ := "INFO" |})
     = Some "unknown logger: LogConfig(Name=bogus, Severity=INFO)"
  /\ trace (@Infof testExternals "x=%d" [VInt 5]
              (snd (@InitWithConfig testExternals
                      [ {| Name := "console"; Severity_ := "info" |};
                        {| Name := "bogus"; Severity_ := "INFO" |} ]
                      initial_state)))
     = [ EvNewLogger {| Name := "console"; Severity_ := "info" |};
         EvNewLogger {| Name := "bogus"; Severity_ := "INFO" |};
         EvWrite "console" "INFO main.go:42 main.run: x=[5]" ].
Proof.
  split; [reflexivity |]. split; [reflexivity |].
  exact (proj2 (@partial_InitWithConfig_reaches_first_backend testExternals
                  {| Name := "console"; Severity_ := "info" |}
                  {| Name := "bogus"; Severity_ := "INFO" |} []
                  (bufferLogger "console" SeverityInfo)
                  "unknown logger: LogConfig(Name=bogus, Severity=INFO)"
                  "x=%d" [VInt 5] eq_refl eq_refl)).
Defined.

Lemma emissions_in_sequence_witness :
  In (@Infof testExternals, SeverityInfo) (@emissions testExternals)
  /\ In (@Errorf testExternals, SeverityError) (@emissions testExternals)
  /\ trace (@Errorf testExternals "disk %s" [VString "full"]
              (@Infof testExternals "x=%d" [VInt 5] twoBackends))
     = [ EvWrite "bufA" "INFO main.go:42 main.run: x=[5]";
         EvWrite "bufA" "ERROR main.go:42 main.run: disk [full]";
         EvWrite "bufB" "ERROR main.go:42 main.run: disk [full]" ].
Proof.
  assert (H1 : In (@Infof testExternals, SeverityInfo)
                  (@emissions testExternals))
    by (left; reflexivity).
  assert (H2 : In (@Errorf testExternals, SeverityError)
                  (@emissions testExternals))
    by (right; right; left; reflexivity).
  split; [exact H1 |]. split; [exact H2 |].
  exact (@emissions_in_sequence testExternals _ _ _ _ "x=%d" "disk %s"
           [VInt 5] [VString "full"] [backendA; backendB] twoBackends
           H1 H2 eq_refl eq_refl).
Defined.
